(** * ZenChat backend: authentication controller and request rate limiter

    A shallow embedding of [src/controllers/user.controller.ts]
    ([signUp], [login], [logout]) and of the rate-limiter wiring of the
    server module ([limiter], [keyGenerator]), with the properties the
    specification states about them.

    Objects that the JavaScript code handles as property bags (a user
    document, the object handed to [userRepo.create]) are finite maps from
    property names to values.  The asynchronous handlers are sequential
    programs over the database; they are written in a small monad that
    threads the database, records every call made to a collaborator, and
    stops at the first [throw]. *)

From Stdlib Require Import ZArith Lia Ascii.
From stdpp Require Import base strings gmap list pretty.

Local Open Scope Z_scope.

(** ** JavaScript values and objects *)

Inductive JsVal : Type :=
| JNull
| JBool (b : bool)
| JNum (n : Z)
| JStr (s : string).

#[global] Instance JsVal_eq_dec : EqDecision JsVal.
Proof. solve_decision. Defined.

(** A plain object: own enumerable properties, looked up by name.  A
    missing property reads as [undefined], here [None]. *)
Abbreviation Obj := (gmap string JsVal).

(** ** Errors ([core/ApiError])

    The controller and the limiter construct three of the [ApiError]
    subclasses, each with a message.  [NativeError] stands for an [Error]
    that is not an [ApiError] (what a rejected library promise carries);
    [asyncHandler] forwards both kinds to the error middleware. *)

Inductive Thrown : Type :=
| BadRequestError (message : string)
| AuthFailureError (message : string)
| RateLimitError (message : string)
| NativeError (message : string).

#[global] Instance Thrown_eq_dec : EqDecision Thrown.
Proof. solve_decision. Defined.

(** The failure kinds of the specification, as the code raises them. *)
Definition DuplicateIdentity (e : Thrown) : Prop :=
  e = BadRequestError "Email already exists" ∨
  e = BadRequestError "Username already exists".

Definition MissingCredentials : Thrown := BadRequestError "No credentials provided".
Definition InvalidCredentials : Thrown := AuthFailureError "Invalid credentials".

(** ** Roles, tokens, responses *)

Inductive RoleCode : Type := USER | ADMIN.

Record Tokens : Type := mkTokens { accessToken : string; refreshToken : string }.

Record CookieOptions : Type := mkCookieOptions { httpOnly : bool; secure : bool }.

(** What a handler does to the cookies of [res], in call order. *)
Inductive CookieOp : Type :=
| SetCookie (name value : string) (options : CookieOptions)
| ClearCookie (name : string) (options : CookieOptions).

(** The [data] argument of a [SuccessResponse]: [{ user, tokens }] for
    signup and login, [{}] for logout. *)
Record ResponseData : Type := mkData { user : option Obj; tokens : option Tokens }.

Record Response : Type := mkResponse {
  cookies : list CookieOp;
  message : string;
  data : ResponseData
}.

Definition SuccessResponse (msg : string) (d : ResponseData) (cs : list CookieOp) : Response :=
  {| cookies := cs; message := msg; data := d |}.

(** ** Request bodies

    The fields the controller destructures from [req.body], at the types
    it uses them at: strings, the login password possibly absent. *)

Record SignUpBody : Type := mkSignUpBody {
  su_email : string;
  su_username : string;
  su_password : string
}.

Record LoginBody : Type := mkLoginBody {
  lg_userId : string;
  lg_password : option string
}.

(** [!password]: [undefined] and the empty string are falsy. *)
Definition falsy (p : option string) : bool :=
  match p with
  | None => true
  | Some s => bool_decide (s = "")
  end.

(** ** What one run of a handler draws from its surroundings

    [environment] is the configuration constant; [rnd23] is the value of
    [Math.floor(Math.random() * 23)] for this run, an integer from 0 to
    22; [salt] is the salt [bcrypt.hash] generates for this run. *)

Record Run : Type := mkRun {
  environment : string;
  rnd23 : Z;
  salt : string
}.

(** ** Calls to collaborators, as recorded in the trace *)

Inductive Event : Type :=
| EvFindByEmail (email : string)
| EvFindByUsername (username : string)
| EvFindByEmailOrUsername (userId : string)
| EvCreate (u : Obj) (role : RoleCode)
| EvHash (password : string) (rounds : Z)
| EvCompare (password hash : string)
| EvHashRejected (password : option JsVal) (rounds : Z)
| EvCompareRejected (password : string) (stored : option JsVal)
| EvCreateTokens (u : Obj)
| EvFilterUserData (u : Obj).

(** ** The collaborators of the controller

    [userRepo], [bcrypt], [createTokens] and [filterUserData] are imported
    by the controller; it is written against their signatures only, and
    so is the embedding: the controller is a function of any
    implementation of them over any database type. *)

Class Collaborators (Db : Type) : Type := {
  repo_findByEmail : string → Db → option Obj;
  repo_findByUsername : string → Db → option Obj;
  repo_findByEmailOrUsername : string → Db → option Obj;
  repo_create : Obj → RoleCode → Db → Db * Obj;
  bcrypt_hash : string → string → Z → string;
  bcrypt_compare : string → string → bool;
  auth_createTokens : Obj → Db → Db * Tokens;
  utils_filterUserData : Obj → Obj
}.

(** ** The handler monad: database state, call trace, first throw wins *)

Record Outcome (Db A : Type) : Type := mkOutcome {
  trace : list Event;
  db : Db;
  result : Thrown + A
}.
Arguments mkOutcome {Db A} _ _ _.
Arguments trace {Db A} _.
Arguments db {Db A} _.
Arguments result {Db A} _.

Definition Handler (Db A : Type) : Type := Db → Outcome Db A.

Definition ret {Db A} (a : A) : Handler Db A :=
  λ s, mkOutcome [] s (inr a).

Definition throw {Db A} (e : Thrown) : Handler Db A :=
  λ s, mkOutcome [] s (inl e).

Definition bind {Db A B} (m : Handler Db A) (k : A → Handler Db B) : Handler Db B :=
  λ s,
    let o := m s in
    match result o with
    | inl e => mkOutcome (trace o) (db o) (inl e)
    | inr a =>
        let o' := k a (db o) in
        mkOutcome (trace o ++ trace o') (db o') (result o')
    end.

(** A read-only call: the database is untouched, the call is recorded. *)
Definition query {Db A} (ev : Event) (f : Db → A) : Handler Db A :=
  λ s, mkOutcome [ev] s (inr (f s)).

(** A call that may write. *)
Definition update {Db A} (ev : Event) (f : Db → Db * A) : Handler Db A :=
  λ s, mkOutcome [ev] (f s).1 (inr (f s).2).

(** A call that the collaborator rejects: the call is recorded, the
    rejection is what the handler throws. *)
Definition rejected {Db A} (ev : Event) (e : Thrown) : Handler Db A :=
  λ s, mkOutcome [ev] s (inl e).

(** The handlers are written with the monad notation [x ← m; k]. *)
#[global] Instance Handler_ret {Db} : MRet (Handler Db) := λ A, @ret Db A.
#[global] Instance Handler_bind {Db} : MBind (Handler Db) := λ A B k m, bind m k.

Section Controller.
Context {Db : Type} `{!Collaborators Db}.

Definition findByEmail (email : string) : Handler Db (option Obj) :=
  query (EvFindByEmail email) (repo_findByEmail email).

Definition findByUsername (username : string) : Handler Db (option Obj) :=
  query (EvFindByUsername username) (repo_findByUsername username).

Definition findByEmailOrUsername (userId : string) : Handler Db (option Obj) :=
  query (EvFindByEmailOrUsername userId) (repo_findByEmailOrUsername userId).

Definition create (u : Obj) (role : RoleCode) : Handler Db Obj :=
  update (EvCreate u role) (repo_create u role).

Definition hash (run : Run) (password : string) (rounds : Z) : Handler Db string :=
  query (EvHash password rounds) (λ _, bcrypt_hash (salt run) password rounds).

(** [bcrypt.compare(data, hash)] rejects unless both arguments are
    strings. *)
Definition compare (password : string) (stored : option JsVal) : Handler Db bool :=
  match stored with
  | Some (JStr h) => query (EvCompare password h) (λ _, bcrypt_compare password h)
  | None | Some JNull =>
      rejected (EvCompareRejected password stored)
               (NativeError "data and hash arguments required")
  | Some _ =>
      rejected (EvCompareRejected password stored)
               (NativeError "data and hash must be strings")
  end.

Definition createTokens (u : Obj) : Handler Db Tokens :=
  update (EvCreateTokens u) (auth_createTokens u).

Definition filterUserData (u : Obj) : Handler Db Obj :=
  query (EvFilterUserData u) (λ _, utils_filterUserData u).

(** *** signUp *)

Definition avatarNumber (run : Run) : Z := rnd23 run + 1.

Definition formattedNumber (avatarNumber : Z) : string :=
  if avatarNumber <? 10 then "0" +:+ pretty avatarNumber else pretty avatarNumber.

Definition avatarUrl (formatted : string) : string :=
  "https://imageserver-1-466g.onrender.com/static/avatars/avatar" +:+ formatted +:+ ".avif".

Definition newUser (username email hashedPassword url : string) : Obj :=
  <["username" := JStr username]>
    (<["email" := JStr email]>
       (<["password" := JStr hashedPassword]>
          (<["avatarUrl" := JStr url]> ∅))).

Definition signUp (run : Run) (body : SignUpBody) : Handler Db Response :=
  let email := su_email body in
  let username := su_username body in
  let password := su_password body in
  existingUserEmail ← findByEmail email;
  if existingUserEmail is Some _ then throw (BadRequestError "Email already exists") else
  existingUserUsername ← findByUsername username;
  if existingUserUsername is Some _ then throw (BadRequestError "Username already exists") else
  hashedPassword ← hash run password 10;
  let formatted := formattedNumber (avatarNumber run) in
  user ← create (newUser username email hashedPassword (avatarUrl formatted)) USER;
  tokens ← createTokens user;
  userData ← filterUserData user;
  mret (SuccessResponse "Signup successful"
         {| user := Some userData; tokens := Some tokens |} []).

(** *** login *)

Definition cookieOptions (run : Run) : CookieOptions :=
  {| httpOnly := true; secure := bool_decide (environment run = "production") |}.

(** [const { password: pass, status, ...filteredUser } = user] *)
Definition filteredUser (user : Obj) : Obj :=
  delete "status" (delete "password" user).

Definition login (run : Run) (body : LoginBody) : Handler Db Response :=
  let userId := lg_userId body in
  let password := lg_password body in
  found ← findByEmailOrUsername userId;
  match found with
  | None => throw (BadRequestError "Invalid email/username")
  | Some user =>
      if falsy password then throw (BadRequestError "No credentials provided") else
      matched ← compare (default "" password) (user !! "password");
      if negb matched then throw (AuthFailureError "Invalid credentials") else
      tokens ← createTokens user;
      let options := cookieOptions run in
      mret (SuccessResponse "Login successful"
             {| user := Some (filteredUser user); tokens := Some tokens |}
             [ SetCookie "accessToken" (accessToken tokens) options;
               SetCookie "refreshToken" (refreshToken tokens) options ])
  end.

(** *** logout *)

Definition logout (run : Run) : Handler Db Response :=
  let options := cookieOptions run in
  mret (SuccessResponse "Logout successful"
         {| user := None; tokens := None |}
         [ ClearCookie "accessToken" options;
           ClearCookie "refreshToken" options ]).

End Controller.

(** *** signUp on any body

    [signUp] above takes the password as a string.  The handler itself
    does not look at [req.body.password] before it hands it to
    [bcrypt.hash]: the property may be absent or hold any value, and
    [bcrypt.hash(data, 10)] rejects unless [data] is a string.  This is
    the handler on such a body; email and username stay strings, they go
    to [userRepo] as they are. *)
Record RawSignUpBody : Type := mkRawSignUpBody {
  raw_email : string;
  raw_username : string;
  raw_password : option JsVal
}.

Section ControllerAnyBody.
Context {Db : Type} `{!Collaborators Db}.

Definition hashRaw (run : Run) (password : option JsVal) (rounds : Z) : Handler Db string :=
  match password with
  | Some (JStr p) => hash run p rounds
  | None | Some JNull =>
      rejected (EvHashRejected password rounds)
               (NativeError "data and salt arguments required")
  | Some _ =>
      rejected (EvHashRejected password rounds)
               (NativeError "data must be a string or Buffer and salt must either be a salt string or a number of rounds")
  end.

Definition signUpRaw (run : Run) (body : RawSignUpBody) : Handler Db Response :=
  let email := raw_email body in
  let username := raw_username body in
  let password := raw_password body in
  existingUserEmail ← findByEmail email;
  if existingUserEmail is Some _ then throw (BadRequestError "Email already exists") else
  existingUserUsername ← findByUsername username;
  if existingUserUsername is Some _ then throw (BadRequestError "Username already exists") else
  hashedPassword ← hashRaw run password 10;
  let formatted := formattedNumber (avatarNumber run) in
  user ← create (newUser username email hashedPassword (avatarUrl formatted)) USER;
  tokens ← createTokens user;
  userData ← filterUserData user;
  mret (SuccessResponse "Signup successful"
         {| user := Some userData; tokens := Some tokens |} []).

End ControllerAnyBody.

(** What the browser's cookie jar holds after a response: [res.cookie]
    stores the value under the name, [res.clearCookie] removes it. *)
Definition applyCookie (jar : gmap string string) (op : CookieOp) : gmap string string :=
  match op with
  | SetCookie name value _ => <[name := value]> jar
  | ClearCookie name _ => delete name jar
  end.

Definition applyCookies (ops : list CookieOp) (jar : gmap string string) : gmap string string :=
  foldl applyCookie jar ops.

(** The avatar reference that a run handed to [userRepo.create], read off
    the trace. *)
Fixpoint assignedAvatar (tr : list Event) : option JsVal :=
  match tr with
  | [] => None
  | EvCreate u _ :: _ => u !! "avatarUrl"
  | _ :: rest => assignedAvatar rest
  end.

Definition isCreate (ev : Event) : bool :=
  match ev with EvCreate _ _ => true | _ => false end.

Definition isFindByUsername (ev : Event) : bool :=
  match ev with EvFindByUsername _ => true | _ => false end.

(** A two-character decimal rendering, the reading of "zero-padded index". *)
Definition digit (d : Z) : Ascii.ascii := Ascii.ascii_of_nat (48 + Z.to_nat d).
Definition twoDigits (n : Z) : string :=
  String (digit (n / 10)) (String (digit (n mod 10)) EmptyString).

(** ** An in-memory stand-in for the collaborators

    Used to run the controller on concrete inputs. *)
Module Memory.

Definition hasField (k v : string) (u : Obj) : bool :=
  bool_decide (u !! k = Some (JStr v)).

(** Modelled from the spec: [userRepo], the user repository, which the
    controller imports (section 1: a datastore with simple CRUD
    operations; section 3: email and username identify a user).  The
    collection is a list of documents in insertion order and a lookup
    returns the first document whose field equals the key. *)
Definition mem_findByEmail (email : string) (users : list Obj) : option Obj :=
  List.find (hasField "email" email) users.

Definition mem_findByUsername (username : string) (users : list Obj) : option Obj :=
  List.find (hasField "username" username) users.

Definition mem_findByEmailOrUsername (userId : string) (users : list Obj) : option Obj :=
  List.find (λ u, hasField "email" userId u || hasField "username" userId u) users.

Definition roleName (r : RoleCode) : string :=
  match r with USER => "USER" | ADMIN => "ADMIN" end.

(** Modelled from the spec: [userRepo.create]; the document is stored
    with its role and an [_id], and handed back. *)
Definition mem_create (u : Obj) (r : RoleCode) (users : list Obj) : list Obj * Obj :=
  let doc := <["_id" := JNum (Z.of_nat (length users))]> (<["role" := JStr (roleName r)]> u) in
  (users ++ [doc], doc).

(** Stand-ins for [bcrypt], [createTokens] and [filterUserData]: the
    simplest functions with the right signatures.  The digest is the
    salt, a dollar sign and the password. *)
Definition mem_hash (salt password : string) (rounds : Z) : string :=
  salt +:+ "$" +:+ password.

Fixpoint afterDollar (digest : string) : string :=
  match digest with
  | EmptyString => EmptyString
  | String c rest => if bool_decide (c = "$"%char) then rest else afterDollar rest
  end.

Definition mem_compare (password digest : string) : bool :=
  bool_decide (afterDollar digest = password).

Definition mem_createTokens (u : Obj) (users : list Obj) : list Obj * Tokens :=
  (users, {| accessToken := "access"; refreshToken := "refresh" |}).

Definition mem_filterUserData (u : Obj) : Obj := delete "password" u.

#[global] Instance collaborators : Collaborators (list Obj) := {|
  repo_findByEmail := mem_findByEmail;
  repo_findByUsername := mem_findByUsername;
  repo_findByEmailOrUsername := mem_findByEmailOrUsername;
  repo_create := mem_create;
  bcrypt_hash := mem_hash;
  bcrypt_compare := mem_compare;
  auth_createTokens := mem_createTokens;
  utils_filterUserData := mem_filterUserData
|}.

(** Sample data. *)
Definition alice : Obj :=
  <["username" := JStr "alice"]>
    (<["email" := JStr "alice@zen.chat"]>
       (<["password" := JStr "s4lt$wonderland"]>
          (<["status" := JBool true]> ∅))).

Definition users0 : list Obj := [alice].

Definition run0 : Run := {| environment := "production"; rnd23 := 0; salt := "s4lt" |}.
Definition run9 : Run := {| environment := "production"; rnd23 := 9; salt := "s4lt" |}.

End Memory.

(** ** RateLimiter

    [rateLimit] is imported from express-rate-limit; the server module
    configures it and supplies the key generator and the handler. *)
Module RateLimiter.

Record Config : Type := mkConfig { windowMs : Z; max : Z }.

Record Client : Type := mkClient { totalHits : Z; resetTime : Z }.

Inductive Decision : Type :=
| Allowed
| Denied (retryAfter : Z).

(** Modelled from the spec: the counter behind [rateLimit], whose code
    is not part of the server module.  Section 4.6: a fixed window
    counter keyed by the client key, configured by
    [{windowDuration, maxRequests}].  The first hit of a key opens its
    window; a hit that arrives once the window has run out opens a new
    one. *)
Definition increment (cfg : Config) (now : Z) (key : string)
    (store : gmap string Client) : Client :=
  match store !! key with
  | Some c =>
      if bool_decide (now < resetTime c)
      then {| totalHits := totalHits c + 1; resetTime := resetTime c |}
      else {| totalHits := 1; resetTime := now + windowMs cfg |}
  | None => {| totalHits := 1; resetTime := now + windowMs cfg |}
  end.

(** Modelled from the spec: [check(clientKey) → Allowed |
    Denied(retryAfter)] of section 4.6; a hit is denied when it exceeds
    the request cap within the window (section 6). *)
Definition check (cfg : Config) (now : Z) (key : string)
    (store : gmap string Client) : gmap string Client * Decision :=
  let c := increment cfg now key store in
  (<[key := c]> store,
   if bool_decide (totalHits c ≤ max cfg) then Allowed
   else Denied (resetTime c - now)).

End RateLimiter.

(** ** The server module: limiter options, key generator, handler *)

(** What the limiter reads of a request: the address resolved by
    [requestIp.getClientIp(req)] ([null] when none can be determined), and
    the request line. *)
Record Request : Type := mkRequest {
  clientIp : option string;
  method : string;
  originalUrl : string
}.

Definition limiterOptions : RateLimiter.Config :=
  {| RateLimiter.windowMs := 1 * 60 * 1000; RateLimiter.max := 200 |}.

(** [requestIp.getClientIp(req) || ""] *)
Definition keyGenerator (req : Request) : string :=
  match clientIp req with
  | Some ip => if bool_decide (ip = "") then "" else ip
  | None => ""
  end.

Definition handler (options : RateLimiter.Config) : Thrown :=
  RateLimitError
    ("You exceeded the request limit. Allowed " +:+ pretty (RateLimiter.max options)
     +:+ " requests per " +:+ pretty (RateLimiter.windowMs options / 60000) +:+ " minute.").

(** The limiter as middleware: [inr ()] lets the request through to the
    routes, [inl e] is [next(e)]. *)
Definition limiter (now : Z) (req : Request) (store : gmap string RateLimiter.Client)
    : gmap string RateLimiter.Client * (Thrown + ()) :=
  let r := RateLimiter.check limiterOptions now (keyGenerator req) store in
  (r.1,
   match r.2 with
   | RateLimiter.Allowed => inr ()
   | RateLimiter.Denied _ => inl (handler limiterOptions)
   end).

(** The server handling requests one after the other, each at its
    arrival time. *)
Fixpoint serve (reqs : list (Z * Request)) (store : gmap string RateLimiter.Client)
    : list (Thrown + ()) :=
  match reqs with
  | [] => []
  | (now, req) :: rest =>
      let r := limiter now req store in
      r.2 :: serve rest r.1
  end.

Abbreviation Store := (gmap string RateLimiter.Client).

(** The limiter's answer to the [n]-th hit of a window. *)
Definition verdict (n : Z) : Thrown + () :=
  if bool_decide (n ≤ RateLimiter.max limiterOptions) then inr ()
  else inl (handler limiterOptions).

(** How many of the requests carry the key [k]. *)
Definition hitsOf (k : string) (reqs : list (Z * Request)) : Z :=
  Z.of_nat (length (filter (λ r, keyGenerator r.2 = k) reqs)).

(** How many of the requests come from the resolved address [ip]. *)
Definition hitsFrom (ip : string) (reqs : list (Z * Request)) : Z :=
  Z.of_nat (length (filter (λ r, clientIp r.2 = Some ip) reqs)).

(** ** CredentialHasher

    [bcrypt.hash] and [bcrypt.compare] are imported by the controller.
    The one-way function itself is a parameter of the model: nothing
    depends on which one it is. *)
Module CredentialHasher.

Record Digest : Type := mkDigest {
  cost : Z;
  salt : list Z;
  derived : list Z
}.

Definition workFactor : Z := 10.



Section Hasher.
Variable kdf : Z → list Z → string → list Z.

(** Modelled from the spec: [bcrypt.hash(password, 10)].  Section 4.1:
    an adaptive, salted one-way function with the fixed work factor
    10; the digest records the work factor and the salt. *)
Definition hash (salt : list Z) (plaintext : string) : Digest :=
  {| cost := workFactor; salt := salt; derived := kdf workFactor salt plaintext |}.

End Hasher.

End CredentialHasher.

(** ** Reading traces and verdicts *)




(** The user that [userRepo.create] hands back to a signUp that passed
    both uniqueness checks. *)
Definition createdUser {Db : Type} `{!Collaborators Db}
    (run : Run) (body : SignUpBody) (s : Db) : Obj :=
  (repo_create
     (newUser (su_username body) (su_email body)
        (bcrypt_hash (salt run) (su_password body) 10)
        (avatarUrl (formattedNumber (avatarNumber run))))
     USER s).2.

(** The answers given to the requests that carry the key [k], in order. *)
Definition verdictsOf (k : string) (reqs : list (Z * Request))
    (store : gmap string RateLimiter.Client) : list (Thrown + ()) :=
  (filter (λ p, keyGenerator p.1.2 = k) (zip reqs (serve reqs store))).*2.

(** How many of them were let through. *)
Definition passedOf (k : string) (reqs : list (Z * Request))
    (store : gmap string RateLimiter.Client) : Z :=
  Z.of_nat (length (filter (λ v, v = inr ()) (verdictsOf k reqs store))).

(** ** The error middleware of the server module

    [ErrorType] is the enumeration of [core/ApiError]; the middleware
    names its member [INTERNAL] and compares with it, nothing more, so the
    enumeration is a parameter.  An error is an [ApiError] of some type, or
    any other [Error]; [message] is a string, [stack] may be undefined. *)
Section ErrorMiddleware.
Context {ErrorType : Type} `{!EqDecision ErrorType}.
Variable INTERNAL : ErrorType.

Record JsError : Type := mkJsError {
  apiType : option ErrorType;
  errMessage : string;
  errStack : option string
}.

(** What the middleware does, in call order. *)
Inductive Effect : Type :=
| ApiError_handle (err : JsError)
| ApiError_handle_InternalError
| console_error (line : string)
| status500_send (body : option string).

(** A value inside a template literal. *)
Definition interpolate (v : option string) : string := default "undefined" v.

(** [`500 - ${err.message} - ${req.originalUrl} - ${req.method} - ${req.ip}\nError Stack: ${err.stack}`] *)
Definition errorLine (err : JsError) (req : Request) (ip : option string) : string :=
  "500 - " +:+ errMessage err +:+ " - " +:+ originalUrl req +:+ " - " +:+ method req
  +:+ " - " +:+ interpolate ip
  +:+ String "010"%char ("Error Stack: " +:+ interpolate (errStack err)).

Definition errorMiddleware (run : Run) (err : JsError) (req : Request)
    (ip : option string) : list Effect :=
  match apiType err with
  | Some type =>
      ApiError_handle err ::
      (if decide (type = INTERNAL) then [console_error (errorLine err req ip)] else [])
  | None =>
      console_error (errorLine err req ip) ::
      (if decide (environment run = "development")
       then [status500_send (errStack err)]
       else [ApiError_handle_InternalError])
  end.

Definition isResponse (e : Effect) : bool :=
  match e with console_error _ => false | _ => true end.

End ErrorMiddleware.

Arguments ApiError_handle_InternalError {ErrorType}.
Arguments console_error {ErrorType} _.
Arguments status500_send {ErrorType} _.

(** ** Sample inputs *)

Module Samples.

Definition bothTaken : SignUpBody :=
  {| su_email := "alice@zen.chat"; su_username := "alice"; su_password := "pw" |}.
Definition nameTaken : SignUpBody :=
  {| su_email := "other@zen.chat"; su_username := "alice"; su_password := "pw" |}.
Definition bob : SignUpBody :=
  {| su_email := "bob@zen.chat"; su_username := "bob"; su_password := "builder" |}.

Definition unknownUser : LoginBody :=
  {| lg_userId := "nobody"; lg_password := Some "wonderland" |}.
Definition wrongPassword : LoginBody :=
  {| lg_userId := "alice"; lg_password := Some "guess" |}.
Definition rightPassword : LoginBody :=
  {| lg_userId := "alice@zen.chat"; lg_password := Some "wonderland" |}.
Definition noPassword : LoginBody :=
  {| lg_userId := "alice"; lg_password := None |}.
Definition unknownNoPassword : LoginBody :=
  {| lg_userId := "nobody"; lg_password := None |}.

Definition anonymous (url : string) : Request :=
  {| clientIp := None; method := "GET"; originalUrl := url |}.
Definition fromAddress (ip url : string) : Request :=
  {| clientIp := Some ip; method := "GET"; originalUrl := url |}.

(** One address opening its window at time 0, then 200 more requests of
    it one millisecond later. *)
Definition burst : list (Z * Request) :=
  (0, fromAddress "10.0.0.7" "/health") :: replicate 200 (1, fromAddress "10.0.0.7" "/").

(** 201 requests without a resolvable address, to different routes. *)
Definition crowd : list (Z * Request) :=
  (0, anonymous "/auth/login") :: replicate 200 (1, anonymous "/api/chat").
End Samples.

Import Samples.

(** More sample inputs. *)
Module MoreSamples.

Definition blank : SignUpBody :=
  {| su_email := "carol@zen.chat"; su_username := "carol"; su_password := "" |}.

Definition bobLogin : LoginBody :=
  {| lg_userId := "bob@zen.chat"; lg_password := Some "builder" |}.

Definition noPasswordBody : RawSignUpBody :=
  {| raw_email := "dave@zen.chat"; raw_username := "dave"; raw_password := None |}.

Definition development : Run :=
  {| environment := "development"; rnd23 := 4; salt := "pepper" |}.

(** Two addresses taking turns: 250 requests each within one window. *)
Definition turns : list (Z * Request) :=
  (0, fromAddress "10.0.0.7" "/") ::
  mjoin (replicate 250 [(1, fromAddress "10.0.0.8" "/"); (2, fromAddress "10.0.0.7" "/")]).

End MoreSamples.

Import MoreSamples.

(** * Properties *)

(** Unfold one handler step down to its outcome. *)
Ltac step_handler :=
  cbv zeta;
  unfold findByEmail, findByUsername, findByEmailOrUsername, create, hash,
    createTokens, filterUserData;
  unfold mbind, Handler_bind, mret, Handler_ret, bind, ret, throw, rejected, query, update;
  cbn [trace db result].

Section ControllerFacts.
Context {Db : Type} `{!Collaborators Db}.
Implicit Types (s : Db) (run : Run).

(** *** signUp *)

Lemma signUp_email_taken run body s u :
  repo_findByEmail (su_email body) s = Some u →
  signUp run body s =
    mkOutcome [EvFindByEmail (su_email body)] s
              (inl (BadRequestError "Email already exists")).
Proof. intros Hu. unfold signUp. step_handler. rewrite Hu. reflexivity. Qed.

Lemma signUp_username_taken run body s u :
  repo_findByEmail (su_email body) s = None →
  repo_findByUsername (su_username body) s = Some u →
  signUp run body s =
    mkOutcome [EvFindByEmail (su_email body); EvFindByUsername (su_username body)] s
              (inl (BadRequestError "Username already exists")).
Proof.
  intros He Hu. unfold signUp. step_handler. rewrite He. cbn [trace db result].
  rewrite Hu. reflexivity.
Qed.

Lemma signUp_fresh run body s :
  repo_findByEmail (su_email body) s = None →
  repo_findByUsername (su_username body) s = None →
  let doc := newUser (su_username body) (su_email body)
               (bcrypt_hash (salt run) (su_password body) 10)
               (avatarUrl (formattedNumber (avatarNumber run))) in
  let created := repo_create doc USER s in
  let issued := auth_createTokens created.2 created.1 in
  signUp run body s =
    mkOutcome
      [EvFindByEmail (su_email body); EvFindByUsername (su_username body);
       EvHash (su_password body) 10; EvCreate doc USER;
       EvCreateTokens created.2; EvFilterUserData created.2]
      issued.1
      (inr (SuccessResponse "Signup successful"
              {| user := Some (utils_filterUserData created.2);
                 tokens := Some issued.2 |} [])).
Proof.
  intros He Hu. unfold signUp. step_handler. rewrite He. cbn [trace db result].
  rewrite Hu. reflexivity.
Qed.

(** *** login *)

Lemma login_miss run body s :
  repo_findByEmailOrUsername (lg_userId body) s = None →
  login run body s =
    mkOutcome [EvFindByEmailOrUsername (lg_userId body)] s
              (inl (BadRequestError "Invalid email/username")).
Proof. intros Hm. unfold login. step_handler. rewrite Hm. reflexivity. Qed.

Lemma login_no_password run body s u :
  repo_findByEmailOrUsername (lg_userId body) s = Some u →
  falsy (lg_password body) = true →
  login run body s =
    mkOutcome [EvFindByEmailOrUsername (lg_userId body)] s (inl MissingCredentials).
Proof.
  intros Hu Hp. unfold login. step_handler. rewrite Hu, Hp. reflexivity.
Qed.

Lemma login_checked run body s u p h :
  repo_findByEmailOrUsername (lg_userId body) s = Some u →
  lg_password body = Some p → p ≠ "" →
  u !! "password" = Some (JStr h) →
  login run body s =
    if bcrypt_compare p h then
      let issued := auth_createTokens u s in
      mkOutcome
        [EvFindByEmailOrUsername (lg_userId body); EvCompare p h; EvCreateTokens u]
        issued.1
        (inr (SuccessResponse "Login successful"
                {| user := Some (filteredUser u); tokens := Some issued.2 |}
                [ SetCookie "accessToken" (accessToken issued.2) (cookieOptions run);
                  SetCookie "refreshToken" (refreshToken issued.2) (cookieOptions run) ]))
    else
      mkOutcome [EvFindByEmailOrUsername (lg_userId body); EvCompare p h] s
                (inl InvalidCredentials).
Proof.
  intros Hu Hp Hne Hh. unfold login. step_handler. rewrite Hu, Hp.
  unfold falsy. rewrite bool_decide_eq_false_2 by done.
  cbn [default from_option]. unfold id. rewrite Hh. unfold compare. step_handler.
  destruct (bcrypt_compare p h); reflexivity.
Qed.

(** A login that succeeds went through every check. *)
Lemma login_success_inv run body s resp :
  result (login run body s) = inr resp →
  ∃ u p h,
    repo_findByEmailOrUsername (lg_userId body) s = Some u ∧
    lg_password body = Some p ∧ p ≠ "" ∧
    u !! "password" = Some (JStr h) ∧
    bcrypt_compare p h = true ∧
    data resp = {| user := Some (filteredUser u);
                   tokens := Some (auth_createTokens u s).2 |}.
Proof.
  intros Hr.
  destruct (repo_findByEmailOrUsername (lg_userId body) s) as [u|] eqn:Hu;
    [| rewrite login_miss in Hr by done; discriminate].
  destruct (falsy (lg_password body)) eqn:Hf;
    [rewrite (login_no_password _ _ _ u) in Hr by done; discriminate |].
  destruct (lg_password body) as [p|] eqn:Hp; [| discriminate].
  cbn in Hf. apply bool_decide_eq_false in Hf.
  destruct (u !! "password") as [[| b | n | h]|] eqn:Hh.
  1-3, 5: unfold login in Hr; revert Hr; step_handler; rewrite Hu, Hp;
    unfold falsy; rewrite bool_decide_eq_false_2 by done;
    cbn [default from_option]; rewrite Hh; unfold compare; step_handler; discriminate.
  rewrite (login_checked _ _ _ u p h) in Hr by done.
  destruct (bcrypt_compare p h) eqn:Hc; [| discriminate].
  cbn in Hr. injection Hr as <-.
  exists u, p, h. repeat split; done.
Qed.

End ControllerFacts.

(** ** The in-memory repository finds exactly the existing users *)

Lemma Memory_find_field (k v : string) (users : list Obj) :
  is_Some (List.find (Memory.hasField k v) users) ↔
  ∃ u, u ∈ users ∧ u !! k = Some (JStr v).
Proof.
  split.
  - intros [u Hu]. apply List.find_some in Hu as [Hin Hf].
    exists u. split; [by apply list_elem_of_In | by apply bool_decide_eq_true in Hf].
  - intros (u & Hin & Hf).
    destruct (List.find (Memory.hasField k v) users) as [w|] eqn:Hfind; [by eexists|].
    apply list_elem_of_In in Hin. apply (List.find_none _ _ Hfind u) in Hin.
    unfold Memory.hasField in Hin. by rewrite bool_decide_eq_true_2 in Hin.
Qed.

Lemma Memory_findByEmail_hit (email : string) (users : list Obj) :
  is_Some (repo_findByEmail email users) ↔
  ∃ u, u ∈ users ∧ u !! "email" = Some (JStr email).
Proof. apply Memory_find_field. Qed.

Lemma Memory_findByUsername_hit (username : string) (users : list Obj) :
  is_Some (repo_findByUsername username users) ↔
  ∃ u, u ∈ users ∧ u !! "username" = Some (JStr username).
Proof. apply Memory_find_field. Qed.

(** ** signUp: uniqueness checks *)

(** C10: signUp looks the email up before the username.  Whenever the
    email belongs to an existing user (whether or not the username
    collides as well) the failure reported is the email collision, and the
    only collaborator call made is the email lookup: the username lookup
    is never reached. *)
Theorem signUp_email_checked_first {Db} `{!Collaborators Db}
    (run : Run) (body : SignUpBody) (s : Db) (u : Obj) :
  repo_findByEmail (su_email body) s = Some u →
  result (signUp run body s) = inl (BadRequestError "Email already exists") ∧
  trace (signUp run body s) = [EvFindByEmail (su_email body)] ∧
  Forall (λ ev, isFindByUsername ev = false) (trace (signUp run body s)).
Proof.
  intros Hu. rewrite (signUp_email_taken run body s u Hu). cbn [result trace].
  repeat split. repeat constructor.
Qed.

(** C2: a signup whose email or username is that of an existing user (the
    repository finds a user under it) fails with DuplicateIdentity; the
    database is left as it was and [userRepo.create] is not called. *)
Theorem signUp_duplicate_rejected {Db} `{!Collaborators Db}
    (run : Run) (body : SignUpBody) (s : Db) :
  is_Some (repo_findByEmail (su_email body) s) ∨
  is_Some (repo_findByUsername (su_username body) s) →
  ∃ e, result (signUp run body s) = inl e ∧ DuplicateIdentity e ∧
       db (signUp run body s) = s ∧
       Forall (λ ev, isCreate ev = false) (trace (signUp run body s)).
Proof.
  intros Hdup.
  destruct (repo_findByEmail (su_email body) s) as [u|] eqn:He.
  - rewrite (signUp_email_taken run body s u He). cbn [result db trace].
    eexists; repeat split; [by left | repeat constructor].
  - destruct Hdup as [[? ?]|[u Hu]]; [discriminate|].
    rewrite (signUp_username_taken run body s u He Hu). cbn [result db trace].
    eexists; repeat split; [by right | repeat constructor].
Qed.

(** ** login: failures *)

(** C1, as the code has it: a lookup miss fails with the bad-request error
    "Invalid email/username", whatever the password; a password that does
    not verify against an existing user fails with the auth-failure error
    "Invalid credentials".  Both leave the database untouched, and the two
    errors differ. *)
Theorem login_failures_distinguished {Db} `{!Collaborators Db}
    (run : Run) (miss wrong : LoginBody) (s : Db) (u : Obj) (p h : string) :
  repo_findByEmailOrUsername (lg_userId miss) s = None →
  repo_findByEmailOrUsername (lg_userId wrong) s = Some u →
  lg_password wrong = Some p → p ≠ "" →
  u !! "password" = Some (JStr h) →
  bcrypt_compare p h = false →
  result (login run miss s) = inl (BadRequestError "Invalid email/username") ∧
  result (login run wrong s) = inl InvalidCredentials ∧
  db (login run miss s) = s ∧ db (login run wrong s) = s ∧
  result (login run miss s) ≠ result (login run wrong s).
Proof.
  intros Hm Hu Hp Hne Hh Hc.
  rewrite (login_miss run miss s Hm).
  rewrite (login_checked run wrong s u p h Hu Hp Hne Hh), Hc.
  cbn [result db]. repeat split. discriminate.
Qed.

(** C3, as the code has it: when the identifier matches an existing user
    and no password is supplied, login fails with MissingCredentials; when
    the identifier matches no user, login fails on the lookup, with
    "Invalid email/username", before the password is looked at. *)
Theorem login_missing_password {Db} `{!Collaborators Db}
    (run : Run) (body : LoginBody) (s : Db) :
  falsy (lg_password body) = true →
  result (login run body s) =
    match repo_findByEmailOrUsername (lg_userId body) s with
    | Some _ => inl MissingCredentials
    | None => inl (BadRequestError "Invalid email/username")
    end.
Proof.
  intros Hp.
  destruct (repo_findByEmailOrUsername (lg_userId body) s) as [u|] eqn:Hu.
  - by rewrite (login_no_password run body s u Hu Hp).
  - by rewrite (login_miss run body s Hu).
Qed.

(** ** login: success *)

Lemma filteredUser_lookup (u : Obj) (k : string) :
  filteredUser u !! k =
    if bool_decide (k = "password" ∨ k = "status") then None else u !! k.
Proof.
  unfold filteredUser. case_bool_decide as Hk.
  - destruct Hk as [-> | ->].
    + rewrite lookup_delete_ne by done. apply lookup_delete_eq.
    + apply lookup_delete_eq.
  - rewrite !lookup_delete_ne by (intros ?; subst k; apply Hk; auto). reflexivity.
Qed.

(** C6: the user object of a successful login response has no [password]
    property. *)
Theorem login_strips_password {Db} `{!Collaborators Db}
    (run : Run) (body : LoginBody) (s : Db) (resp : Response) :
  result (login run body s) = inr resp →
  ∃ u, user (data resp) = Some u ∧ u !! "password" = None.
Proof.
  intros Hr. apply login_success_inv in Hr as (u & p & h & _ & _ & _ & _ & _ & Hd).
  exists (filteredUser u). rewrite Hd. split; [reflexivity|].
  rewrite filteredUser_lookup. by rewrite bool_decide_eq_true_2 by auto.
Qed.

(** ** logout *)

(** C7: logout is idempotent.  Two calls in a row both succeed with the
    same response, which clears the access and the refresh cookie; after
    the first response the jar holds neither credential, the second call
    does not depend on that and leaves the jar as the first did.  The
    database is not touched and no collaborator is called. *)
Theorem logout_idempotent {Db} `{!Collaborators Db}
    (run : Run) (s : Db) (jar : gmap string string) :
  let first := logout run s in
  let second := logout run (db first) in
  ∃ resp,
    result first = inr resp ∧ result second = inr resp ∧
    cookies resp = [ ClearCookie "accessToken" (cookieOptions run);
                     ClearCookie "refreshToken" (cookieOptions run) ] ∧
    applyCookies (cookies resp) jar !! "accessToken" = None ∧
    applyCookies (cookies resp) jar !! "refreshToken" = None ∧
    applyCookies (cookies resp) (applyCookies (cookies resp) jar)
      = applyCookies (cookies resp) jar ∧
    db second = s ∧ trace first = [] ∧ trace second = [].
Proof.
  cbv zeta. unfold logout. step_handler. eexists. split; [reflexivity|].
  split; [reflexivity|]. unfold SuccessResponse, applyCookies. cbn.
  repeat split.
  - rewrite lookup_delete_ne by discriminate. apply lookup_delete_eq.
  - apply lookup_delete_eq.
  - apply map_eq. intros k. rewrite !lookup_delete.
    repeat case_decide; reflexivity.
Qed.

(** ** signUp: the default avatar *)

Lemma formattedNumber_twoDigits (n : Z) :
  1 ≤ n ≤ 23 → formattedNumber n = twoDigits n.
Proof.
  intros Hn.
  assert (∃ k : nat, (k < 23)%nat ∧ n = Z.of_nat k + 1) as (k & Hk & ->)
    by (exists (Z.to_nat (n - 1)); lia).
  do 23 (destruct k as [|k]; [vm_compute; reflexivity|]). lia.
Qed.

Lemma digit_inj (a b : Z) : 0 ≤ a < 10 → 0 ≤ b < 10 → digit a = digit b → a = b.
Proof.
  intros Ha Hb Heq. unfold digit in Heq.
  apply (f_equal nat_of_ascii) in Heq.
  rewrite !nat_ascii_embedding in Heq by lia. lia.
Qed.

Lemma twoDigits_inj (m n : Z) :
  0 ≤ m < 100 → 0 ≤ n < 100 → twoDigits m = twoDigits n → m = n.
Proof.
  intros Hm Hn Heq. unfold twoDigits in Heq. injection Heq as Hhi Hlo.
  apply digit_inj in Hhi; [| split; [apply Z.div_pos | apply Z.div_lt_upper_bound]; lia ..].
  apply digit_inj in Hlo; [| apply Z.mod_pos_bound; lia ..].
  rewrite (Z.div_mod m 10), (Z.div_mod n 10) by lia. congruence.
Qed.

Lemma length_append (a b : string) :
  String.length (a +:+ b) = (String.length a + String.length b)%nat.
Proof.
  induction a as [|c a IH]; [reflexivity|].
  change (S (String.length (a +:+ b)) = S (String.length a + String.length b)).
  by rewrite IH.
Qed.

Lemma avatarUrl_inj (f g : string) : avatarUrl f = avatarUrl g → f = g.
Proof.
  unfold avatarUrl. intros Heq. apply (inj (String.app _)) in Heq.
  apply (f_equal String.length) in Heq as Hlen.
  rewrite !length_append in Hlen.
  revert g Heq Hlen. induction f as [|c f IH]; intros [|d g] Heq Hlen;
    cbn in Hlen; try lia; [reflexivity|].
  change (String c (f +:+ ".avif") = String d (g +:+ ".avif")) in Heq.
  injection Heq as -> Heq. f_equal. apply IH; [done | lia].
Qed.

Lemma newUser_avatarUrl (username email hashedPassword url : string) :
  newUser username email hashedPassword url !! "avatarUrl" = Some (JStr url).
Proof.
  unfold newUser. rewrite !lookup_insert_ne by done. apply lookup_insert_eq.
Qed.

Lemma signUp_assignedAvatar {Db} `{!Collaborators Db}
    (run : Run) (body : SignUpBody) (s : Db) :
  repo_findByEmail (su_email body) s = None →
  repo_findByUsername (su_username body) s = None →
  assignedAvatar (trace (signUp run body s)) =
    Some (JStr (avatarUrl (formattedNumber (avatarNumber run)))).
Proof.
  intros He Hu. rewrite (signUp_fresh run body s He Hu). cbn [trace assignedAvatar].
  apply newUser_avatarUrl.
Qed.

(** C4, as the code has it: the avatar reference is drawn at random.  With
    [d] the value of [Math.floor(Math.random() * 23)] in a run, the user
    is created with the reference [avatarNN.avif] where [NN] is [d + 1]
    written with two digits (01 to 23); two runs with the same inputs on
    the same database assign the same reference exactly when their draws
    are equal. *)
Theorem signUp_avatar_follows_draw {Db} `{!Collaborators Db}
    (run run' : Run) (body : SignUpBody) (s : Db) :
  repo_findByEmail (su_email body) s = None →
  repo_findByUsername (su_username body) s = None →
  0 ≤ rnd23 run < 23 → 0 ≤ rnd23 run' < 23 →
  assignedAvatar (trace (signUp run body s)) =
    Some (JStr (avatarUrl (twoDigits (rnd23 run + 1)))) ∧
  (assignedAvatar (trace (signUp run body s)) =
     assignedAvatar (trace (signUp run' body s)) ↔ rnd23 run = rnd23 run').
Proof.
  intros He Hu Hd Hd'.
  rewrite !signUp_assignedAvatar by done. unfold avatarNumber.
  rewrite !formattedNumber_twoDigits by lia. split; [reflexivity|]. split.
  - intros Heq.
    assert (avatarUrl (twoDigits (rnd23 run + 1)) = avatarUrl (twoDigits (rnd23 run' + 1)))
      as Hurl by congruence.
    apply avatarUrl_inj, twoDigits_inj in Hurl; lia.
  - intros ->. reflexivity.
Qed.

(** ** The rate limiter *)

Lemma handler_message :
  handler limiterOptions =
    RateLimitError "You exceeded the request limit. Allowed 200 requests per 1 minute.".
Proof. vm_compute. reflexivity. Qed.

Lemma hitsOf_cons (k : string) (r : Z * Request) (reqs : list (Z * Request)) :
  hitsOf k (r :: reqs) =
    (if decide (keyGenerator r.2 = k) then 1 else 0) + hitsOf k reqs.
Proof.
  unfold hitsOf. destruct (decide (keyGenerator r.2 = k)) as [Hk|Hk].
  - rewrite filter_cons_True by done. cbn [length]. lia.
  - rewrite filter_cons_False by done. lia.
Qed.

Lemma hitsOf_nonneg (k : string) (reqs : list (Z * Request)) : 0 ≤ hitsOf k reqs.
Proof. unfold hitsOf. lia. Qed.

(** A hit inside the live window of its key adds one to the counter and
    keeps the window. *)
Lemma limiter_live (now : Z) (req : Request) (store : Store) (c : RateLimiter.Client) :
  store !! keyGenerator req = Some c →
  now < RateLimiter.resetTime c →
  limiter now req store =
    (<[keyGenerator req :=
         {| RateLimiter.totalHits := RateLimiter.totalHits c + 1;
            RateLimiter.resetTime := RateLimiter.resetTime c |}]> store,
     verdict (RateLimiter.totalHits c + 1)).
Proof.
  intros Hc Hlive. unfold limiter, RateLimiter.check, RateLimiter.increment, verdict.
  rewrite Hc, bool_decide_eq_true_2 by done. cbn [fst snd RateLimiter.totalHits].
  by case_bool_decide.
Qed.

(** A hit with no live window opens one and is let through. *)
Lemma limiter_opens (now : Z) (req : Request) (store : Store) :
  match store !! keyGenerator req with
  | Some c => RateLimiter.resetTime c ≤ now
  | None => True
  end →
  limiter now req store =
    (<[keyGenerator req :=
         {| RateLimiter.totalHits := 1;
            RateLimiter.resetTime := now + RateLimiter.windowMs limiterOptions |}]> store,
     inr ()).
Proof.
  intros Hfresh. unfold limiter, RateLimiter.check, RateLimiter.increment.
  destruct (store !! keyGenerator req) as [c|]; [rewrite bool_decide_eq_false_2 by lia|];
    reflexivity.
Qed.

(** A hit leaves the counters of all other keys alone. *)
Lemma limiter_other (now : Z) (req : Request) (store : Store) (k : string) :
  keyGenerator req ≠ k → (limiter now req store).1 !! k = store !! k.
Proof. intros Hk. unfold limiter, RateLimiter.check. cbn [fst]. by rewrite lookup_insert_ne. Qed.

(** While the window of [k] is live, the answer to each request of [k] is
    decided by the hits of [k] so far. *)
Lemma serve_live (reqs : list (Z * Request)) :
  ∀ (store : Store) (k : string) (c : RateLimiter.Client) (i : nat) (r : Z * Request),
    store !! k = Some c →
    Forall (λ r, r.1 < RateLimiter.resetTime c) reqs →
    reqs !! i = Some r →
    keyGenerator r.2 = k →
    serve reqs store !! i =
      Some (verdict (RateLimiter.totalHits c + hitsOf k (take (S i) reqs))).
Proof.
  induction reqs as [|[now req] reqs IH]; intros store k c i r Hc Hwin Hi Hk; [done|].
  apply Forall_cons in Hwin as [Hnow Hwin]. cbn [fst] in Hnow.
  cbn [serve]. rewrite firstn_cons, hitsOf_cons. cbn [snd].
  destruct i as [|i].
  - cbn in Hi. injection Hi as <-. cbn [snd] in Hk. subst k.
    rewrite (limiter_live now req store c) by done. cbn [snd lookup list_lookup].
    rewrite take_0. rewrite decide_True by reflexivity. reflexivity.
  - cbn in Hi. change ((?x :: ?l) !! S i) with (l !! i).
    destruct (decide (keyGenerator req = k)) as [Hreq|Hreq].
    + rewrite <- Hreq in Hc, Hk |- *.
      rewrite (limiter_live now req store c) by done. cbn [fst].
      erewrite (IH _ _ _ i r); [| apply lookup_insert_eq | done | done | done].
      cbn [RateLimiter.totalHits]. do 2 f_equal. lia.
    + erewrite (IH _ k c i r); [| by rewrite limiter_other | done | done | done].
      do 2 f_equal.
Qed.

(** From the request that opens the window of its key on: the answer to
    each later request of that key within the window. *)
Lemma serve_from_opening (store : Store) (t0 : Z) (first : Request)
    (rest : list (Z * Request)) (i : nat) (r : Z * Request) :
  match store !! keyGenerator first with
  | Some c => RateLimiter.resetTime c ≤ t0
  | None => True
  end →
  Forall (λ r, r.1 < t0 + RateLimiter.windowMs limiterOptions) rest →
  ((t0, first) :: rest) !! i = Some r →
  keyGenerator r.2 = keyGenerator first →
  serve ((t0, first) :: rest) store !! i =
    Some (verdict (hitsOf (keyGenerator first) (take (S i) ((t0, first) :: rest)))).
Proof.
  intros Hfresh Hwin Hi Hk. cbn [serve].
  rewrite (limiter_opens t0 first store Hfresh), firstn_cons, hitsOf_cons.
  cbn [fst snd]. rewrite decide_True by reflexivity.
  destruct i as [|i].
  - rewrite take_0. reflexivity.
  - change ((?x :: ?l) !! S i) with (l !! i). cbn in Hi.
    erewrite (serve_live rest _ _ _ i r); [| apply lookup_insert_eq | done | done | done].
    reflexivity.
Qed.

(** The key of a request is a resolved address exactly when the request
    comes from that address. *)
Lemma keyGenerator_resolved (ip : string) (req : Request) :
  ip ≠ "" → keyGenerator req = ip ↔ clientIp req = Some ip.
Proof.
  intros Hip. unfold keyGenerator.
  destruct (clientIp req) as [ip'|]; [case_bool_decide|]; split; intros Heq;
    congruence.
Qed.

Lemma hitsFrom_hitsOf (ip : string) (reqs : list (Z * Request)) :
  ip ≠ "" → hitsFrom ip reqs = hitsOf ip reqs.
Proof.
  intros Hip. unfold hitsFrom, hitsOf. do 2 f_equal.
  apply list_filter_iff. intros r. symmetry. by apply keyGenerator_resolved.
Qed.

(** C5: with the configured 200 requests per 60000 ms, take the request
    that opens the window of a client address and any requests that
    follow before the window runs out, from this address or from others.
    A request from that address which is the [n]-th from it in the window
    is let through when [n ≤ 200] and fails with the rate-limit error
    when [n > 200], whatever the other addresses sent in between: the
    200th is allowed, the 201st is refused. *)
Theorem limiter_allows_200_refuses_201 (store : Store) (t0 : Z) (ip : string)
    (first : Request) (rest : list (Z * Request)) (i : nat) (r : Z * Request) :
  ip ≠ "" →
  clientIp first = Some ip →
  match store !! ip with
  | Some c => RateLimiter.resetTime c ≤ t0
  | None => True
  end →
  Forall (λ r, r.1 < t0 + 60000) rest →
  ((t0, first) :: rest) !! i = Some r →
  clientIp r.2 = Some ip →
  let n := hitsFrom ip (take (S i) ((t0, first) :: rest)) in
  (n ≤ 200 → serve ((t0, first) :: rest) store !! i = Some (inr ())) ∧
  (200 < n →
     serve ((t0, first) :: rest) store !! i =
       Some (inl (RateLimitError
                    "You exceeded the request limit. Allowed 200 requests per 1 minute."))).
Proof.
  intros Hip Hfirst Hfresh Hwin Hi Hr n.
  apply (keyGenerator_resolved ip first Hip) in Hfirst.
  apply (keyGenerator_resolved ip r.2 Hip) in Hr.
  rewrite <- Hfirst in Hfresh, Hr.
  rewrite (serve_from_opening store t0 first rest i r Hfresh Hwin Hi Hr).
  rewrite Hfirst, <- (hitsFrom_hitsOf ip) by done.
  fold n. unfold verdict. rewrite handler_message.
  change (RateLimiter.max limiterOptions) with 200.
  split; intros Hn; case_bool_decide; (reflexivity || lia).
Qed.

(** C9: the limiter keys a request by its resolved client address, and by
    the empty string when none is resolved.  So all requests without a
    resolvable address count against one window: such a request is let
    through or refused by the number of empty-key requests so far, its
    own and everybody else's, against the one cap of 200. *)
Theorem unresolved_addresses_share_budget (store : Store) (t0 : Z) (first : Request)
    (rest : list (Z * Request)) (i : nat) (r : Z * Request) :
  clientIp first = None →
  match store !! "" with
  | Some c => RateLimiter.resetTime c ≤ t0
  | None => True
  end →
  Forall (λ r, r.1 < t0 + 60000) rest →
  ((t0, first) :: rest) !! i = Some r →
  clientIp r.2 = None →
  (∀ req ip, clientIp req = Some ip → ip ≠ "" → keyGenerator req = ip) ∧
  (∀ req, clientIp req = None → keyGenerator req = "") ∧
  serve ((t0, first) :: rest) store !! i =
    Some (if bool_decide (hitsOf "" (take (S i) ((t0, first) :: rest)) ≤ 200)
          then inr ()
          else inl (RateLimitError
                      "You exceeded the request limit. Allowed 200 requests per 1 minute.")).
Proof.
  intros Hfirst Hfresh Hwin Hi Hr.
  assert (Hnone : ∀ req, clientIp req = None → keyGenerator req = "")
    by (intros req Hreq; unfold keyGenerator; by rewrite Hreq).
  split; [| split; [exact Hnone|]].
  - intros req ip Hreq Hip. unfold keyGenerator. rewrite Hreq.
    by rewrite bool_decide_eq_false_2.
  - pose proof (Hnone first Hfirst) as Hk0.
    pose proof (serve_from_opening store t0 first rest i r) as Hs.
    rewrite Hk0 in Hs. rewrite Hs by auto.
    unfold verdict. by rewrite handler_message.
Qed.

(** ** The credential hasher *)





(** * Concrete runs

    Each theorem above that has premises, applied to sample inputs on the
    in-memory collaborators. *)

Lemma signUp_email_checked_first_witness :
  repo_findByEmail (su_email bothTaken) Memory.users0 = Some Memory.alice ∧
  repo_findByUsername (su_username bothTaken) Memory.users0 = Some Memory.alice ∧
  result (signUp Memory.run0 bothTaken Memory.users0)
    = inl (BadRequestError "Email already exists") ∧
  trace (signUp Memory.run0 bothTaken Memory.users0) = [EvFindByEmail "alice@zen.chat"].
Proof.
  assert (He : repo_findByEmail (su_email bothTaken) Memory.users0 = Some Memory.alice)
    by (vm_compute; reflexivity).
  split; [exact He|]. split; [vm_compute; reflexivity|].
  destruct (signUp_email_checked_first Memory.run0 bothTaken Memory.users0 Memory.alice He)
    as (Hr & Ht & _).
  split; [exact Hr | exact Ht].
Defined.

Lemma signUp_duplicate_rejected_witness :
  ∃ e, result (signUp Memory.run0 nameTaken Memory.users0) = inl e ∧ DuplicateIdentity e ∧
       db (signUp Memory.run0 nameTaken Memory.users0) = Memory.users0 ∧
       Forall (λ ev, isCreate ev = false) (trace (signUp Memory.run0 nameTaken Memory.users0)).
Proof.
  apply (signUp_duplicate_rejected Memory.run0 nameTaken Memory.users0).
  right. exists Memory.alice. vm_compute. reflexivity.
Defined.

Lemma login_failures_distinguished_witness :
  result (login Memory.run0 unknownUser Memory.users0)
    = inl (BadRequestError "Invalid email/username") ∧
  result (login Memory.run0 wrongPassword Memory.users0) = inl InvalidCredentials ∧
  db (login Memory.run0 unknownUser Memory.users0) = Memory.users0 ∧
  db (login Memory.run0 wrongPassword Memory.users0) = Memory.users0 ∧
  result (login Memory.run0 unknownUser Memory.users0)
    ≠ result (login Memory.run0 wrongPassword Memory.users0).
Proof.
  apply (login_failures_distinguished Memory.run0 unknownUser wrongPassword Memory.users0
           Memory.alice "guess" "s4lt$wonderland").
  - vm_compute. reflexivity.
  - vm_compute. reflexivity.
  - reflexivity.
  - discriminate.
  - vm_compute. reflexivity.
  - vm_compute. reflexivity.
Defined.

Lemma login_missing_password_witness :
  falsy (lg_password noPassword) = true ∧
  result (login Memory.run0 noPassword Memory.users0) = inl MissingCredentials.
Proof.
  split; [reflexivity|].
  rewrite (login_missing_password Memory.run0 noPassword Memory.users0) by reflexivity.
  vm_compute. reflexivity.
Defined.

Lemma login_strips_password_witness :
  ∃ resp, result (login Memory.run0 rightPassword Memory.users0) = inr resp ∧
          ∃ u, user (data resp) = Some u ∧ u !! "password" = None.
Proof.
  eexists. split; [vm_compute; reflexivity|].
  apply (login_strips_password Memory.run0 rightPassword Memory.users0).
  vm_compute. reflexivity.
Defined.

Lemma signUp_avatar_follows_draw_witness :
  assignedAvatar (trace (signUp Memory.run0 bob Memory.users0)) =
    Some (JStr (avatarUrl (twoDigits 1))) ∧
  (assignedAvatar (trace (signUp Memory.run0 bob Memory.users0)) =
     assignedAvatar (trace (signUp Memory.run9 bob Memory.users0))
   ↔ rnd23 Memory.run0 = rnd23 Memory.run9).
Proof.
  apply (signUp_avatar_follows_draw Memory.run0 Memory.run9 bob Memory.users0).
  - vm_compute. reflexivity.
  - vm_compute. reflexivity.
  - simpl. lia.
  - simpl. lia.
Defined.

Lemma limiter_allows_200_refuses_201_witness :
  hitsFrom "10.0.0.8" (take 398 turns) = 199 ∧
  serve turns ∅ !! 398%nat = Some (inr ()) ∧
  serve turns ∅ !! 400%nat =
    Some (inl (RateLimitError
                 "You exceeded the request limit. Allowed 200 requests per 1 minute.")).
Proof.
  split; [vm_compute; reflexivity|]. split.
  - apply (limiter_allows_200_refuses_201 ∅ 0 "10.0.0.7" (fromAddress "10.0.0.7" "/")
             (mjoin (replicate 250 [(1, fromAddress "10.0.0.8" "/");
                                    (2, fromAddress "10.0.0.7" "/")])) 398
             (2, fromAddress "10.0.0.7" "/")).
    + discriminate.
    + reflexivity.
    + exact I.
    + apply (bool_decide_unpack _). vm_compute. exact I.
    + vm_compute. reflexivity.
    + reflexivity.
    + vm_compute. discriminate.
  - apply (limiter_allows_200_refuses_201 ∅ 0 "10.0.0.7" (fromAddress "10.0.0.7" "/")
             (mjoin (replicate 250 [(1, fromAddress "10.0.0.8" "/");
                                    (2, fromAddress "10.0.0.7" "/")])) 400
             (2, fromAddress "10.0.0.7" "/")).
    + discriminate.
    + reflexivity.
    + exact I.
    + apply (bool_decide_unpack _). vm_compute. exact I.
    + vm_compute. reflexivity.
    + reflexivity.
    + vm_compute. reflexivity.
Defined.

Lemma unresolved_addresses_share_budget_witness :
  keyGenerator (anonymous "/auth/login") = keyGenerator (anonymous "/api/chat") ∧
  serve crowd ∅ !! 200%nat =
    Some (inl (RateLimitError
                 "You exceeded the request limit. Allowed 200 requests per 1 minute.")).
Proof.
  split; [reflexivity|].
  destruct (unresolved_addresses_share_budget ∅ 0 (anonymous "/auth/login")
              (replicate 200 (1, anonymous "/api/chat")) 200 (1, anonymous "/api/chat"))
    as (_ & _ & Hs).
  - reflexivity.
  - exact I.
  - apply Forall_replicate. cbn. lia.
  - vm_compute. reflexivity.
  - reflexivity.
  - unfold crowd. rewrite Hs. vm_compute. reflexivity.
Defined.

(** ** Where the specification and the code part ways *)

(** C1: an unknown identifier and a wrong password for a known user get
    different errors. *)
Lemma login_unknown_user_vs_wrong_password :
  result (login Memory.run0 unknownUser Memory.users0)
    = inl (BadRequestError "Invalid email/username") ∧
  result (login Memory.run0 wrongPassword Memory.users0)
    = inl (AuthFailureError "Invalid credentials") ∧
  result (login Memory.run0 unknownUser Memory.users0)
    ≠ result (login Memory.run0 wrongPassword Memory.users0).
Proof. vm_compute. repeat split. discriminate. Qed.

(** C3: without a password and with an identifier that matches nobody,
    login does not fail with MissingCredentials. *)
Lemma login_unknown_user_no_password :
  result (login Memory.run0 unknownNoPassword Memory.users0)
    = inl (BadRequestError "Invalid email/username") ∧
  result (login Memory.run0 unknownNoPassword Memory.users0) ≠ inl MissingCredentials.
Proof. vm_compute. split; [reflexivity | discriminate]. Qed.

(** C4: the same signup on the same database, with two different draws
    of [Math.random], assigns two different avatars. *)
Lemma signUp_same_inputs_two_avatars :
  environment Memory.run0 = environment Memory.run9 ∧
  salt Memory.run0 = salt Memory.run9 ∧
  assignedAvatar (trace (signUp Memory.run0 bob Memory.users0))
    ≠ assignedAvatar (trace (signUp Memory.run9 bob Memory.users0)).
Proof. vm_compute. repeat split. discriminate. Qed.

(** * Further properties of the controller *)




(** A signUp without a password, on the in-memory collaborators. *)
Lemma signUpRaw_without_password :
  signUpRaw Memory.run0 noPasswordBody Memory.users0 =
    mkOutcome [EvFindByEmail "dave@zen.chat"; EvFindByUsername "dave";
               EvHashRejected None 10]
              Memory.users0
              (inl (NativeError "data and salt arguments required")).
Proof. vm_compute. reflexivity. Qed.

Lemma newUser_dom (username email hashedPassword url : string) :
  dom (newUser username email hashedPassword url)
    = ({["username"; "email"; "password"; "avatarUrl"]} : gset string).
Proof. unfold newUser. rewrite !dom_insert_L, dom_empty_L. set_solver. Qed.

(** X2: what a signUp persists.  A signUp that passes both checks calls
    [userRepo.create] exactly once, with the role USER and a document of
    exactly four properties: the username and email as given, the avatar,
    and as password the digest [bcrypt.hash(password, 10)], not the
    password. *)
Theorem signUp_persists_digest {Db} `{!Collaborators Db}
    (run : Run) (body : SignUpBody) (s : Db) :
  repo_findByEmail (su_email body) s = None →
  repo_findByUsername (su_username body) s = None →
  ∃ doc,
    filter (λ ev, isCreate ev = true) (trace (signUp run body s)) = [EvCreate doc USER] ∧
    dom doc = ({["username"; "email"; "password"; "avatarUrl"]} : gset string) ∧
    doc !! "username" = Some (JStr (su_username body)) ∧
    doc !! "email" = Some (JStr (su_email body)) ∧
    doc !! "password" = Some (JStr (bcrypt_hash (salt run) (su_password body) 10)).
Proof.
  intros He Hu. rewrite (signUp_fresh run body s He Hu). cbn [trace].
  eexists. split; [reflexivity|]. split; [apply newUser_dom|].
  unfold newUser. split; [apply lookup_insert_eq|].
  split; [rewrite lookup_insert_ne by done; apply lookup_insert_eq|].
  rewrite !lookup_insert_ne by done. apply lookup_insert_eq.
Qed.

Lemma signUp_persists_digest_witness :
  ∃ doc,
    filter (λ ev, isCreate ev = true) (trace (signUp Memory.run9 bob Memory.users0))
      = [EvCreate doc USER] ∧
    dom doc = ({["username"; "email"; "password"; "avatarUrl"]} : gset string) ∧
    doc !! "username" = Some (JStr "bob") ∧
    doc !! "email" = Some (JStr "bob@zen.chat") ∧
    doc !! "password" = Some (JStr (bcrypt_hash "s4lt" "builder" 10)).
Proof.
  apply (signUp_persists_digest Memory.run9 bob Memory.users0); vm_compute; reflexivity.
Defined.





(** The whole response of a login that succeeds. *)
Lemma login_success_response {Db} `{!Collaborators Db}
    (run : Run) (body : LoginBody) (s : Db) (resp : Response) :
  result (login run body s) = inr resp →
  ∃ stored issued,
    repo_findByEmailOrUsername (lg_userId body) s = Some stored ∧
    issued = (auth_createTokens stored s).2 ∧
    resp = SuccessResponse "Login successful"
             {| user := Some (filteredUser stored); tokens := Some issued |}
             [ SetCookie "accessToken" (accessToken issued) (cookieOptions run);
               SetCookie "refreshToken" (refreshToken issued) (cookieOptions run) ].
Proof.
  intros Hr.
  pose proof (login_success_inv run body s resp Hr)
    as (u & p & h & Hu & Hp & Hne & Hh & Hc & _).
  rewrite (login_checked run body s u p h Hu Hp Hne Hh), Hc in Hr.
  cbn in Hr. injection Hr as <-. by exists u, (auth_createTokens u s).2.
Qed.

(** X5: the cookies of a successful login.  Exactly two cookies are set,
    accessToken and refreshToken, in that order; their values are the two
    tokens of the response body; both are http-only, and they are marked
    secure exactly when the environment is "production". *)
Theorem login_cookies_carry_tokens {Db} `{!Collaborators Db}
    (run : Run) (body : LoginBody) (s : Db) (resp : Response) :
  result (login run body s) = inr resp →
  ∃ issued options,
    tokens (data resp) = Some issued ∧
    cookies resp = [ SetCookie "accessToken" (accessToken issued) options;
                     SetCookie "refreshToken" (refreshToken issued) options ] ∧
    httpOnly options = true ∧
    (secure options = true ↔ environment run = "production").
Proof.
  intros Hr. apply login_success_response in Hr as (u & issued & _ & _ & ->).
  exists issued, (cookieOptions run). cbn. repeat split.
  - apply bool_decide_eq_true.
  - apply bool_decide_eq_true_2.
Qed.

Lemma login_cookies_carry_tokens_witness :
  ∃ resp, result (login development rightPassword Memory.users0) = inr resp ∧
  ∃ issued options,
    tokens (data resp) = Some issued ∧
    cookies resp = [ SetCookie "accessToken" (accessToken issued) options;
                     SetCookie "refreshToken" (refreshToken issued) options ] ∧
    httpOnly options = true ∧
    (secure options = true ↔ environment development = "production").
Proof.
  eexists. split; [vm_compute; reflexivity|].
  apply (login_cookies_carry_tokens development rightPassword Memory.users0).
  vm_compute. reflexivity.
Defined.

(** X6: apart from [password] and [status], the user of a successful
    login response is the stored user: every other property is there with
    its stored value, and nothing is added.  [status] is left out as
    well. *)
Theorem login_user_keeps_other_properties {Db} `{!Collaborators Db}
    (run : Run) (body : LoginBody) (s : Db) (resp : Response) :
  result (login run body s) = inr resp →
  ∃ stored u,
    repo_findByEmailOrUsername (lg_userId body) s = Some stored ∧
    user (data resp) = Some u ∧
    u !! "status" = None ∧
    (∀ k, k ≠ "password" → k ≠ "status" → u !! k = stored !! k) ∧
    dom u = dom stored ∖ {["password"; "status"]}.
Proof.
  intros Hr. apply login_success_response in Hr as (stored & issued & Hu & _ & ->).
  exists stored, (filteredUser stored). cbn. repeat split; [done | | |].
  - rewrite filteredUser_lookup. by rewrite bool_decide_eq_true_2 by auto.
  - intros k Hp Hs. rewrite filteredUser_lookup.
    rewrite bool_decide_eq_false_2 by tauto. reflexivity.
  - unfold filteredUser. rewrite !dom_delete_L. apply set_eq. intros k.
    rewrite !elem_of_difference, elem_of_union, !elem_of_singleton. tauto.
Qed.

Lemma login_user_keeps_other_properties_witness :
  ∃ resp, result (login Memory.run0 rightPassword Memory.users0) = inr resp ∧
  ∃ stored u,
    repo_findByEmailOrUsername (lg_userId rightPassword) Memory.users0 = Some stored ∧
    user (data resp) = Some u ∧
    u !! "status" = None ∧
    (∀ k, k ≠ "password" → k ≠ "status" → u !! k = stored !! k) ∧
    dom u = dom stored ∖ {["password"; "status"]}.
Proof.
  eexists. split; [vm_compute; reflexivity|].
  apply (login_user_keeps_other_properties Memory.run0 rightPassword Memory.users0).
  vm_compute. reflexivity.
Defined.

(** X7: logout undoes what login did to the cookie jar.  After the
    cookies of a successful login the jar holds the two tokens of the
    response; after the cookies of a logout on top of them it holds
    neither, and every other cookie is as before the login.  The logout
    clears with the options the login set with. *)
Theorem logout_undoes_login {Db} `{!Collaborators Db}
    (run : Run) (body : LoginBody) (s s' : Db) (resp out : Response)
    (jar : gmap string string) :
  result (login run body s) = inr resp →
  result (logout run s') = inr out →
  ∃ issued,
    tokens (data resp) = Some issued ∧
    applyCookies (cookies resp) jar !! "accessToken" = Some (accessToken issued) ∧
    applyCookies (cookies resp) jar !! "refreshToken" = Some (refreshToken issued) ∧
    applyCookies (cookies out) (applyCookies (cookies resp) jar)
      = delete "refreshToken" (delete "accessToken" jar) ∧
    cookies out = [ ClearCookie "accessToken" (cookieOptions run);
                    ClearCookie "refreshToken" (cookieOptions run) ] ∧
    cookies resp = [ SetCookie "accessToken" (accessToken issued) (cookieOptions run);
                     SetCookie "refreshToken" (refreshToken issued) (cookieOptions run) ].
Proof.
  intros Hin Hout. apply login_success_response in Hin as (u & issued & _ & _ & ->).
  unfold logout in Hout. revert Hout. step_handler. intros [= <-].
  exists issued. unfold applyCookies. cbn. repeat split.
  - rewrite lookup_insert_ne by done. apply lookup_insert_eq.
  - apply lookup_insert_eq.
  - apply map_eq. intros k.
    repeat (rewrite lookup_delete || rewrite lookup_insert).
    repeat case_decide; congruence.
Qed.

Lemma logout_undoes_login_witness :
  ∃ resp out,
    result (login Memory.run0 rightPassword Memory.users0) = inr resp ∧
    result (logout Memory.run0 Memory.users0) = inr out ∧
    applyCookies (cookies out) (applyCookies (cookies resp) {["theme" := "dark"]})
      = delete "refreshToken" (delete "accessToken" {["theme" := "dark"]}).
Proof.
  eexists. eexists. split; [vm_compute; reflexivity|]. split; [vm_compute; reflexivity|].
  edestruct (logout_undoes_login (Db := list Obj) Memory.run0 rightPassword
               Memory.users0 Memory.users0)
    as (issued & _ & _ & _ & Hjar & _); cycle 2.
  { exact Hjar. }
  all: vm_compute; reflexivity.
Defined.

(** X8: signing up and then logging in.  Take a signUp that passes both
    checks, with a non-empty password, and collaborators that keep their
    word: the repository finds the created user under the identifier and
    stores the password property it was given, and [bcrypt.compare]
    accepts a password against its own digest.  Then the signUp succeeds
    and a login with that identifier and password on the resulting
    database succeeds too, and answers with the created user without its
    password. *)
Theorem signUp_then_login {Db} `{!Collaborators Db}
    (run run' : Run) (body : SignUpBody) (ident : string) (s : Db) :
  repo_findByEmail (su_email body) s = None →
  repo_findByUsername (su_username body) s = None →
  su_password body ≠ "" →
  repo_findByEmailOrUsername ident (db (signUp run body s))
    = Some (createdUser run body s) →
  createdUser run body s !! "password"
    = Some (JStr (bcrypt_hash (salt run) (su_password body) 10)) →
  bcrypt_compare (su_password body) (bcrypt_hash (salt run) (su_password body) 10) = true →
  let credentials := {| lg_userId := ident; lg_password := Some (su_password body) |} in
  ∃ up resp,
    result (signUp run body s) = inr up ∧
    user (data up) = Some (utils_filterUserData (createdUser run body s)) ∧
    result (login run' credentials (db (signUp run body s))) = inr resp ∧
    user (data resp) = Some (filteredUser (createdUser run body s)) ∧
    filteredUser (createdUser run body s) !! "password" = None.
Proof.
  intros He Hu Hne Hfind Hstored Hcmp credentials.
  rewrite (login_checked run' credentials _ (createdUser run body s)
             (su_password body) _ Hfind eq_refl Hne Hstored), Hcmp.
  rewrite (signUp_fresh run body s He Hu). cbn [result db].
  eexists. eexists. repeat split.
  rewrite filteredUser_lookup. by rewrite bool_decide_eq_true_2 by auto.
Qed.

Lemma signUp_then_login_witness :
  ∃ up resp,
    result (signUp Memory.run9 bob Memory.users0) = inr up ∧
    user (data up) = Some (utils_filterUserData (createdUser Memory.run9 bob Memory.users0)) ∧
    result (login Memory.run0 bobLogin (db (signUp Memory.run9 bob Memory.users0))) = inr resp ∧
    user (data resp) = Some (filteredUser (createdUser Memory.run9 bob Memory.users0)) ∧
    filteredUser (createdUser Memory.run9 bob Memory.users0) !! "password" = None.
Proof.
  apply (signUp_then_login Memory.run9 Memory.run0 bob "bob@zen.chat" Memory.users0).
  - vm_compute. reflexivity.
  - vm_compute. reflexivity.
  - discriminate.
  - vm_compute. reflexivity.
  - vm_compute. reflexivity.
  - vm_compute. reflexivity.
Defined.

(** X9: the empty password.  signUp does not look at the password before
    hashing it: with both checks passed it creates the account for the
    empty password too.  login refuses the empty password for every
    identifier and on every database, so that password never logs in. *)
Theorem empty_password_signs_up_never_logs_in {Db} `{!Collaborators Db}
    (run run' : Run) (body : SignUpBody) (s s' : Db) (ident : string) :
  repo_findByEmail (su_email body) s = None →
  repo_findByUsername (su_username body) s = None →
  su_password body = "" →
  (∃ up, result (signUp run body s) = inr up) ∧
  In (EvHash "" 10) (trace (signUp run body s)) ∧
  ∃ e, result (login run' {| lg_userId := ident; lg_password := Some (su_password body) |} s')
         = inl e ∧
       (e = MissingCredentials ∨ e = BadRequestError "Invalid email/username").
Proof.
  intros He Hu Hpw. rewrite (signUp_fresh run body s He Hu), Hpw. cbn [result trace].
  split; [by eexists|]. split; [cbn; auto|].
  destruct (repo_findByEmailOrUsername ident s') as [u|] eqn:Hfind.
  - rewrite (login_no_password run' _ s' u) by done. cbn. eauto.
  - rewrite (login_miss run' _ s') by done. cbn. eauto.
Qed.

Lemma empty_password_signs_up_never_logs_in_witness :
  (∃ up, result (signUp Memory.run0 blank Memory.users0) = inr up) ∧
  In (EvHash "" 10) (trace (signUp Memory.run0 blank Memory.users0)) ∧
  ∃ e, result (login Memory.run0 {| lg_userId := "carol"; lg_password := Some (su_password blank) |}
                 (db (signUp Memory.run0 blank Memory.users0))) = inl e ∧
       (e = MissingCredentials ∨ e = BadRequestError "Invalid email/username").
Proof.
  apply (empty_password_signs_up_never_logs_in Memory.run0 Memory.run0 blank
           Memory.users0 (db (signUp Memory.run0 blank Memory.users0)) "carol").
  - vm_compute. reflexivity.
  - vm_compute. reflexivity.
  - reflexivity.
Defined.

(** * Further properties of the rate limiter *)

Lemma verdictsOf_cons (k : string) (now : Z) (req : Request)
    (rest : list (Z * Request)) (store : Store) :
  verdictsOf k ((now, req) :: rest) store =
    if decide (keyGenerator req = k)
    then (limiter now req store).2 :: verdictsOf k rest (limiter now req store).1
    else verdictsOf k rest (limiter now req store).1.
Proof.
  unfold verdictsOf. cbn [serve zip zip_with].
  destruct (decide (keyGenerator req = k)) as [Hk|Hk].
  - by rewrite filter_cons_True by done.
  - by rewrite filter_cons_False by done.
Qed.

Lemma passedOf_cons (k : string) (now : Z) (req : Request)
    (rest : list (Z * Request)) (store : Store) :
  passedOf k ((now, req) :: rest) store =
    (if decide (keyGenerator req = k)
     then if decide ((limiter now req store).2 = inr ()) then 1 else 0
     else 0)
    + passedOf k rest (limiter now req store).1.
Proof.
  unfold passedOf. rewrite verdictsOf_cons.
  destruct (decide (keyGenerator req = k)) as [Hk|Hk]; [| lia].
  destruct (decide ((limiter now req store).2 = inr ())) as [Hv|Hv].
  - rewrite filter_cons_True by done. cbn [length]. lia.
  - rewrite filter_cons_False by done. lia.
Qed.

(** The entry a hit leaves under its own key. *)
Lemma limiter_entry (now : Z) (req : Request) (store : Store) :
  (limiter now req store).1 !! keyGenerator req =
    Some (RateLimiter.increment limiterOptions now (keyGenerator req) store).
Proof. unfold limiter, RateLimiter.check. cbn [fst]. apply lookup_insert_eq. Qed.

(** A hit reads nothing of the store but the entry of its own key. *)
Lemma limiter_reads_own_entry (now : Z) (req : Request) (store1 store2 : Store) :
  store1 !! keyGenerator req = store2 !! keyGenerator req →
  (limiter now req store1).2 = (limiter now req store2).2 ∧
  (limiter now req store1).1 !! keyGenerator req
    = (limiter now req store2).1 !! keyGenerator req.
Proof.
  intros Heq. rewrite !limiter_entry.
  unfold limiter, RateLimiter.check, RateLimiter.increment. cbn [snd]. by rewrite Heq.
Qed.

Lemma verdictsOf_own_requests (k : string) (reqs : list (Z * Request)) :
  ∀ store1 store2 : Store,
    store1 !! k = store2 !! k →
    verdictsOf k reqs store1 = serve (filter (λ r, keyGenerator r.2 = k) reqs) store2.
Proof.
  induction reqs as [|[now req] reqs IH]; intros store1 store2 Heq; [reflexivity|].
  rewrite verdictsOf_cons.
  destruct (decide (keyGenerator req = k)) as [Hk|Hk].
  - rewrite filter_cons_True by done. cbn [serve].
    rewrite <- Hk in Heq.
    destruct (limiter_reads_own_entry now req store1 store2 Heq) as [Hv He].
    rewrite Hv. f_equal. apply IH. by rewrite <- Hk.
  - rewrite filter_cons_False by done. apply IH.
    by rewrite limiter_other.
Qed.

(** X10: addresses do not interfere.  The answers the limiter gives to
    the requests of one key are those it would give if these requests
    were the only ones: whatever requests of other keys come in between,
    and whatever the store holds for other keys, two runs with the same
    requests of the key and the same entry for it answer them alike. *)
Theorem limiter_addresses_independent (k : string)
    (reqs1 reqs2 : list (Z * Request)) (store1 store2 : Store) :
  filter (λ r, keyGenerator r.2 = k) reqs1 = filter (λ r, keyGenerator r.2 = k) reqs2 →
  store1 !! k = store2 !! k →
  verdictsOf k reqs1 store1 = verdictsOf k reqs2 store2 ∧
  verdictsOf k reqs1 store1 = serve (filter (λ r, keyGenerator r.2 = k) reqs1) store1.
Proof.
  intros Hreqs Hstore.
  rewrite (verdictsOf_own_requests k reqs1 store1 store1 eq_refl).
  rewrite (verdictsOf_own_requests k reqs2 store2 store1) by done.
  by rewrite Hreqs.
Qed.

Lemma limiter_addresses_independent_witness :
  verdictsOf "10.0.0.7" turns ∅
    = verdictsOf "10.0.0.7" (filter (λ r, keyGenerator r.2 = "10.0.0.7") turns) ∅ ∧
  verdictsOf "10.0.0.7" turns ∅
    = serve (filter (λ r, keyGenerator r.2 = "10.0.0.7") turns) ∅.
Proof.
  apply (limiter_addresses_independent "10.0.0.7" turns
           (filter (λ r, keyGenerator r.2 = "10.0.0.7") turns) ∅ ∅).
  - vm_compute. reflexivity.
  - reflexivity.
Defined.

Lemma passedOf_live (reqs : list (Z * Request)) :
  ∀ (store : Store) (k : string) (c : RateLimiter.Client),
    store !! k = Some c →
    Forall (λ r, r.1 < RateLimiter.resetTime c) reqs →
    passedOf k reqs store =
      Z.max 0 (Z.min (hitsOf k reqs) (200 - RateLimiter.totalHits c)).
Proof.
  induction reqs as [|[now req] reqs IH]; intros store k c Hc Hwin.
  { unfold passedOf, hitsOf. cbn. lia. }
  apply Forall_cons in Hwin as [Hnow Hwin]. cbn [fst] in Hnow.
  rewrite passedOf_cons, hitsOf_cons. cbn [snd].
  destruct (decide (keyGenerator req = k)) as [Hk|Hk].
  - rewrite <- Hk in Hc |- *.
    pose proof (hitsOf_nonneg (keyGenerator req) reqs) as Hge.
    rewrite (limiter_live now req store c Hc Hnow). cbn [fst snd].
    rewrite (IH _ _ {| RateLimiter.totalHits := RateLimiter.totalHits c + 1;
                       RateLimiter.resetTime := RateLimiter.resetTime c |});
      [| apply lookup_insert_eq | done].
    cbn [RateLimiter.totalHits]. unfold verdict.
    change (RateLimiter.max limiterOptions) with 200.
    case_bool_decide; case_decide; try discriminate; try done; lia.
  - rewrite (IH _ k c); [lia | by rewrite limiter_other | done].
Qed.

(** X11: how many get through.  From the request that opens the window
    of an address on, and as long as the window lasts, the number of that
    address's requests let through is the number it sent, capped at 200:
    never more than 200, and none is refused before the cap is
    reached. *)
Theorem limiter_lets_through_at_most_200 (store : Store) (t0 : Z) (first : Request)
    (rest : list (Z * Request)) :
  match store !! keyGenerator first with
  | Some c => RateLimiter.resetTime c ≤ t0
  | None => True
  end →
  Forall (λ r, r.1 < t0 + 60000) rest →
  passedOf (keyGenerator first) ((t0, first) :: rest) store
    = Z.min (hitsOf (keyGenerator first) ((t0, first) :: rest)) 200.
Proof.
  intros Hfresh Hwin.
  rewrite passedOf_cons, hitsOf_cons. cbn [snd].
  rewrite (limiter_opens t0 first store Hfresh). cbn [fst snd].
  rewrite !decide_True by reflexivity.
  rewrite (passedOf_live rest _ _
             {| RateLimiter.totalHits := 1;
                RateLimiter.resetTime := t0 + RateLimiter.windowMs limiterOptions |});
    [| apply lookup_insert_eq | done].
  cbn [RateLimiter.totalHits].
  pose proof (hitsOf_nonneg (keyGenerator first) rest). lia.
Qed.

Lemma limiter_lets_through_at_most_200_witness :
  hitsOf "10.0.0.7" turns = 251 ∧ passedOf "10.0.0.7" turns ∅ = 200.
Proof.
  split; [vm_compute; reflexivity|].
  unfold turns.
  rewrite (limiter_lets_through_at_most_200 ∅ 0 (fromAddress "10.0.0.7" "/")).
  - vm_compute. reflexivity.
  - exact I.
  - apply (bool_decide_unpack _). vm_compute. exact I.
Defined.

(** X12: the budget is renewed.  A request that arrives when the window
    of its address has run out, or when the address has no window, is
    let through, however many requests were refused before: in
    particular after any traffic whatever, once 60000 ms have passed
    since the last request. *)
Theorem limiter_budget_renewed (reqs : list (Z * Request)) (store : Store)
    (t : Z) (req : Request) :
  match store !! keyGenerator req with
  | Some c => RateLimiter.resetTime c ≤ t
  | None => True
  end →
  Forall (λ r, r.1 + 60000 ≤ t) reqs →
  last (serve (reqs ++ [(t, req)]) store) = Some (inr ()).
Proof.
  revert store. induction reqs as [|[now r0] reqs IH]; intros store Hfresh Hold.
  - cbn [app serve]. by rewrite (limiter_opens t req store Hfresh).
  - apply Forall_cons in Hold as [Hnow Hold]. cbn [fst] in Hnow.
    cbn [app serve]. rewrite last_cons.
    rewrite IH; [done | | done].
    destruct (decide (keyGenerator r0 = keyGenerator req)) as [Hk|Hk].
    + rewrite <- Hk in Hfresh |- *. rewrite limiter_entry.
      unfold RateLimiter.increment.
      destruct (store !! keyGenerator r0) as [c|]; [case_bool_decide|];
        cbn [RateLimiter.resetTime]; change (RateLimiter.windowMs limiterOptions) with 60000;
        lia.
    + by rewrite limiter_other.
Qed.

Lemma limiter_budget_renewed_witness :
  last (serve burst ∅) = Some (inl (handler limiterOptions)) ∧
  last (serve (burst ++ [(60001, fromAddress "10.0.0.7" "/")]) ∅) = Some (inr ()).
Proof.
  split; [vm_compute; reflexivity|].
  apply (limiter_budget_renewed burst ∅ 60001 (fromAddress "10.0.0.7" "/")).
  - exact I.
  - unfold burst. apply Forall_cons. split; [cbn; lia|].
    apply Forall_replicate. cbn. lia.
Defined.

(** * Properties of the error middleware *)

#[local] Set Warnings "-clear-no-such-hyp".

Section ErrorMiddlewareFacts.
Context {ErrorType : Type} `{!EqDecision ErrorType}.
Variable INTERNAL : ErrorType.
Implicit Types (err : @JsError ErrorType) (req : Request) (ip : option string).

Lemma errorMiddleware_cases run err req ip :
  errorMiddleware INTERNAL run err req ip =
    match apiType err with
    | Some type =>
        if decide (type = INTERNAL)
        then [ApiError_handle err; console_error (errorLine err req ip)]
        else [ApiError_handle err]
    | None =>
        if decide (environment run = "development")
        then [console_error (errorLine err req ip); status500_send (errStack err)]
        else [console_error (errorLine err req ip); ApiError_handle_InternalError]
    end.
Proof.
  unfold errorMiddleware. destruct (apiType err) as [type|]; by case_decide.
Qed.

End ErrorMiddlewareFacts.

(** X13: the error middleware answers every error exactly once, and the
    stack leaves the server in one case only.  An [ApiError] is answered
    by [ApiError.handle] on the error itself, in every environment.  Any
    other error is answered with its stack when the environment is
    "development", and by [ApiError.handle] on a fresh [InternalError]
    otherwise. *)
Theorem errorMiddleware_answers_once {ErrorType : Type} `{!EqDecision ErrorType}
    (INTERNAL : ErrorType) (run : Run) (err : @JsError ErrorType) (req : Request)
    (ip : option string) :
  let effects := errorMiddleware INTERNAL run err req ip in
  length (filter (λ e, isResponse e = true) effects) = 1%nat ∧
  (∀ body, status500_send body ∈ effects ↔
             apiType err = None ∧ environment run = "development" ∧ body = errStack err) ∧
  (∀ e, ApiError_handle e ∈ effects ↔ is_Some (apiType err) ∧ e = err) ∧
  (ApiError_handle_InternalError ∈ effects ↔
     apiType err = None ∧ environment run ≠ "development").
Proof.
  cbv zeta. rewrite errorMiddleware_cases.
  destruct (apiType err) as [type|]; case_decide;
    (split; [reflexivity|]); set_unfold; naive_solver.
Qed.

(** X14: what the error middleware logs.  It writes to the console, once,
    exactly for the errors that are the server's own fault: those that
    are no [ApiError], and the [ApiError]s of type INTERNAL.  The line
    gives the message, the url, the method, the address and the stack.
    Errors of any other [ApiError] type are not logged. *)
Theorem errorMiddleware_logs_server_faults {ErrorType : Type} `{!EqDecision ErrorType}
    (INTERNAL : ErrorType) (run : Run) (err : @JsError ErrorType) (req : Request)
    (ip : option string) :
  let effects := errorMiddleware INTERNAL run err req ip in
  (∀ line, console_error line ∈ effects ↔
             (apiType err = None ∨ apiType err = Some INTERNAL) ∧
             line = errorLine err req ip) ∧
  (length (filter (λ e, isResponse e = false) effects) ≤ 1)%nat.
Proof.
  cbv zeta. rewrite errorMiddleware_cases.
  destruct (apiType err) as [type|]; case_decide;
    (split; [| cbv -[errorLine Nat.le]; lia]); set_unfold; naive_solver.
Qed.
